(** * The todo list manager ([todo_script.py]), embedded and verified

    The script keeps one module-level list [todo_list] and four functions
    over it: [add_task], [remove_task], [view_tasks] and [save_tasks]; the
    module body then runs a fixed sequence of calls.

    The embedding is shallow.  A Python computation is a function from the
    state of the interpreter and of its environment (the global list, what
    has been written to standard output, the file system and the open file
    objects) to a result and a new state.  A result is a value or a raised
    exception; nothing in the script catches an exception, so [mbind] stops
    at the first one.  Failures of the operating system are not decided by
    the script: they are given by an oracle [fault], a variable of the
    section that holds every definition doing file I/O.

    File I/O is modelled twice.  [FileIO] writes through: each [f.write]
    is one operation of the system.  It is what the script does when
    nothing is refused, and the statements about what is saved use it.
    [Buffered] adds the buffer of the file object, writes that are refused
    after a part has been written, and a close that can raise; the
    statements about failing saves use it, and on a system that refuses
    nothing the two are proved to agree. *)

From Stdlib Require Import ZArith Ascii String.
From stdpp Require Import base list strings gmap pretty.

Open Scope Z_scope.

(** ** Python values *)

(** The newline character ['\n'] and the one-character string holding it. *)
Definition nl : ascii := "010"%char.
Definition NL : string := String nl "".

(** [str(n)] of a Python [int]: decimal digits, with a sign when negative. *)
Definition str_int (n : Z) : string := pretty n.

(** [len(l)] *)
Definition len {A} (l : list A) : Z := Z.of_nat (length l).

(** The exceptions the script can meet.  [OSError] is what [open] and
    [write] raise when the operating system refuses; [IndexError] is what
    [del l[i]] raises out of range; [ValueError] is a write to a closed
    file object. *)
Inductive exn : Type :=
  | OSError (errno : Z)
  | IndexError
  | ValueError.

(** [del l[i]]: a negative index counts from the end; an index that is
    still outside the list raises [IndexError]. *)
Definition list_delitem {A} (l : list A) (i : Z) : exn + list A :=
  let i' := if i <? 0 then i + len l else i in
  if (0 <=? i') && (i' <? len l) then inr (delete (Z.to_nat i') l)
  else inl IndexError.

(** [enumerate(l)], counting from [start] ([enumerate(l)] is
    [enumerate_from 0 l]).  The loop body of [view_tasks] does not touch
    the list, so the pairs are those of the list at the time of the call. *)
Fixpoint enumerate_from {A} (start : Z) (l : list A) : list (Z * A) :=
  match l with
  | [] => []
  | x :: l' => (start, x) :: enumerate_from (start + 1) l'
  end.

Definition enumerate {A} (l : list A) : list (Z * A) := enumerate_from 0 l.

(** ** The state *)

Record World : Type := mkWorld {
  todo_list : list string;       (* the global [todo_list] *)
  stdout : string;               (* the characters written to [sys.stdout] *)
  files : gmap string string;    (* the file system: path to content *)
  handles : gmap nat string      (* the open file objects: descriptor to path *)
}.

Definition with_todo_list (l : list string) (w : World) : World :=
  mkWorld l (stdout w) (files w) (handles w).

Definition with_stdout (s : string) (w : World) : World :=
  mkWorld (todo_list w) s (files w) (handles w).

Definition with_files (fs : gmap string string) (w : World) : World :=
  mkWorld (todo_list w) (stdout w) fs (handles w).

Definition with_handles (hs : gmap nat string) (w : World) : World :=
  mkWorld (todo_list w) (stdout w) (files w) hs.

(** ** Computations: state and exceptions *)

Inductive result (A : Type) : Type :=
  | Ok (a : A)
  | Raise (e : exn).

Arguments Ok {A} a.
Arguments Raise {A} e.

Definition Py (A : Type) : Type := World → result A * World.

#[global] Instance Py_ret : MRet Py := λ A a w, (Ok a, w).

#[global] Instance Py_bind : MBind Py := λ A B k m w,
  match m w with
  | (Ok a, w') => k a w'
  | (Raise e, w') => (Raise e, w')
  end.

(** A [for] loop over a list whose body returns nothing: the first
    exception ends the loop. *)
Fixpoint for_each {A} (xs : list A) (body : A → Py unit) : Py unit :=
  match xs with
  | [] => mret tt
  | x :: xs' => body x ;; for_each xs' body
  end.

(** Reading the global, and [print(s)]: the string and a newline go to
    standard output. *)
Definition get_todo_list : Py (list string) := λ w, (Ok (todo_list w), w).

Definition print (s : string) : Py unit :=
  λ w, (Ok tt, with_stdout (stdout w +:+ s +:+ NL) w).

(** ** The functions that do no file I/O *)

(** [todo_list = []] at module level. *)
Definition init_todo_list : Py unit := λ w, (Ok tt, with_todo_list [] w).

(** [todo_list.append(task)] *)
Definition add_task (task : string) : Py unit :=
  λ w, (Ok tt, with_todo_list (todo_list w ++ [task]) w).

(** [del todo_list[index]] *)
Definition del_todo_item (index : Z) : Py unit :=
  λ w, match list_delitem (todo_list w) index with
       | inr l' => (Ok tt, with_todo_list l' w)
       | inl e => (Raise e, w)
       end.

Definition remove_task (index : Z) : Py unit :=
  l ← get_todo_list;
  if (0 <=? index) && (index <? len l) then del_todo_item index
  else print "Invalid index".

Definition view_tasks : Py unit :=
  l ← get_todo_list;
  for_each (enumerate l)
    (λ '(i, task), print (str_int (i + 1) +:+ ". " +:+ task)).

(** ** File I/O *)

Inductive io_op : Type :=
  | IoOpen (path : string)                  (* [open(path, 'w')] *)
  | IoWrite (path : string) (data : string). (* [f.write(data)] on [path] *)

Section FileIO.

(** What the operating system refuses: [fault op w] is the exception that
    operation [op] raises in state [w], or [None] when it succeeds. *)
Variable fault : io_op → World → option exn.

(** [open(path, 'w')]: on success the file exists and is empty, and a new
    file object is open on it. *)
Definition open_w (path : string) : Py nat :=
  λ w, match fault (IoOpen path) w with
       | Some e => (Raise e, w)
       | None =>
           let fd := fresh (dom (handles w)) in
           (Ok fd, mkWorld (todo_list w) (stdout w)
                     (<[path := ""]> (files w)) (<[fd := path]> (handles w)))
       end.

(** [f.write(data)]: the data goes to the end of the file; the value is
    the number of characters written.  Here the write goes through to the
    system at once and is whole or refused; the buffer of the file object
    is in [Buffered] below. *)
Definition f_write (fd : nat) (data : string) : Py Z :=
  λ w, match handles w !! fd with
       | None => (Raise ValueError, w)
       | Some path =>
           match fault (IoWrite path data) w with
           | Some e => (Raise e, w)
           | None =>
               (Ok (Z.of_nat (String.length data)),
                with_files (<[path := default "" (files w !! path) +:+ data]> (files w)) w)
           end
       end.

(** [f.close()], as the file object's [__exit__] calls it.  With writes
    that go through there is nothing left to write, and the close only
    gives up the file object; the close that has to write what is pending,
    and can raise, is in [Buffered] below. *)
Definition f_close (fd : nat) : World → World :=
  λ w, with_handles (delete fd (handles w)) w.

(** [with open(path, 'w') as f: body]: when [open] raises there is no file
    object and the exception goes on; otherwise the body runs, the file
    object is closed whatever the body did, and the body's result (value or
    exception) is the result of the statement. *)
Definition with_open_w {A} (path : string) (body : nat → Py A) : Py A :=
  λ w, match open_w path w with
       | (Raise e, w1) => (Raise e, w1)
       | (Ok f, w1) =>
           match body f w1 with
           | (r, w2) => (r, f_close f w2)
           end
       end.

Definition save_tasks (filename : string) : Py unit :=
  with_open_w filename (λ f,
    l ← get_todo_list;
    for_each l (λ task, f_write f (task +:+ NL) ;; mret tt)).

(** The module body. *)
Definition main : Py unit :=
  init_todo_list ;;
  add_task "Buy groceries" ;;
  add_task "Read a book" ;;
  view_tasks ;;
  save_tasks "todo.txt".

End FileIO.

(** The oracle of a system that refuses nothing. *)
Definition no_fault : io_op → World → option exn := λ _ _, None.

(** A system whose disk holds [capacity] characters per file: a write that
    would make the file longer is refused with [ENOSPC] (28). *)
Definition disk_full_after (capacity : nat) : io_op → World → option exn :=
  λ op w,
    match op with
    | IoOpen _ => None
    | IoWrite path data =>
        if decide (String.length (default "" (files w !! path))
                   + String.length data ≤ capacity)%nat
        then None else Some (OSError 28)
    end.

(** A system that lets no file be opened for writing: [EACCES] (13). *)
Definition read_only : io_op → World → option exn :=
  λ op _, match op with IoOpen _ => Some (OSError 13) | IoWrite _ _ => None end.

(** A world to start from: nothing stored, nothing printed, no file. *)
Definition empty_world : World := mkWorld [] "" ∅ ∅.

(** The module body: the list it builds, what it prints, what it saves,
    and the state it has reached when it calls [save_tasks]. *)
Definition script_store : list string := ["Buy groceries"; "Read a book"].

Definition script_output : string :=
  "1. Buy groceries" +:+ NL +:+ "2. Read a book" +:+ NL.

Definition script_file : string :=
  "Buy groceries" +:+ NL +:+ "Read a book" +:+ NL.

Definition before_save (w0 : World) : World :=
  mkWorld script_store (stdout w0 +:+ script_output) (files w0) (handles w0).

(** ** Definitions the statements use *)

(** The text of a list of lines, each one ended by a newline. *)
Definition unlines (ls : list string) : string :=
  foldr (λ s acc, s +:+ NL +:+ acc) "" ls.

(** The line shown for the task stored at position [i] (counted from 0):
    the position counted from 1, a dot, a space, the description. *)
Definition display_line (i : nat) (description : string) : string :=
  str_int (Z.of_nat i + 1) +:+ ". " +:+ description.

(** The lines [view_tasks] shows for a list, first task first. *)
Definition listing (l : list string) : list string := imap display_line l.

(** Running a list of appends, in order. *)
Definition appends (ds : list string) : Py unit := for_each ds add_task.

(** The result and the state of a run. *)
Definition result_of {A} (m : Py A) (w : World) : result A := (m w).1.
Definition state_after {A} (m : Py A) (w : World) : World := (m w).2.

(** The state in the middle of [save_tasks path]: the file object is open
    and [content] has been written so far. *)
Definition writing (path content : string) (w : World) : World :=
  mkWorld (todo_list w) (stdout w)
    (<[path := content]> (files w))
    (<[fresh (dom (handles w)) := path]> (handles w)).

(** The state after [save_tasks path] ended with [content] in the file. *)
Definition saved (path content : string) (w : World) : World :=
  with_files (<[path := content]> (files w)) w.

(** From [w] to [w'] only the file system may have changed: the list,
    standard output and the open file objects are the same. *)
Definition untouched_but_files (w w' : World) : Prop :=
  todo_list w' = todo_list w ∧ stdout w' = stdout w ∧ handles w' = handles w.

(** Every write of [save_tasks path], started in [w] with the tasks [l]
    to write, succeeds: the write of the task at position [k] is not
    refused in the state where the tasks before it are in the file. *)
Definition writes_succeed (fault : io_op → World → option exn)
    (path : string) (l : list string) (w : World) : Prop :=
  ∀ (k : nat) (t : string), l !! k = Some t →
    fault (IoWrite path (t +:+ NL)) (writing path (unlines (take k l)) w) = None.

(** Whether a string holds a newline character. *)
Fixpoint has_newline (s : string) : bool :=
  match s with
  | EmptyString => false
  | String c s' => if decide (c = nl) then true else has_newline s'
  end.

(** Modelled from the spec: the script has no reader; this is the spec's
    "reading [path] as newline-delimited text".  Every newline ends a line;
    characters after the last newline, if any, make a last line. *)
Fixpoint read_lines (s : string) : list string :=
  match s with
  | EmptyString => []
  | String c s' =>
      if decide (c = nl) then "" :: read_lines s'
      else match read_lines s' with
           | [] => [String c ""]
           | line :: lines => String c line :: lines
           end
  end.

(** ** The file object, with its buffer

    The functions of [FileIO] above write through: every [f.write] is an
    operation of the system, and it is whole or refused.  That is what
    [save_tasks] does when nothing is refused.  When something is, the
    buffer of the file object matters: [f.write] adds to a pending text
    and returns; the text reaches the system later, in pieces the library
    chooses, at the latest when [__exit__] closes the file object; a
    refused piece may have been written in part; and the exception then
    comes from the close.  The module [Buffered] models this, for the
    statements about failures. *)

(** The first [n] characters of a string, and the string without them. *)
Fixpoint string_take (n : nat) (s : string) : string :=
  match n, s with
  | S n', String c s' => String c (string_take n' s')
  | _, _ => ""
  end.

Fixpoint string_drop (n : nat) (s : string) : string :=
  match n, s with
  | S n', String c s' => string_drop n' s'
  | _, _ => s
  end.

Module Buffered.

(** What was asked of the system, and the exception it answered with, if
    any. *)
Inductive io_event : Type :=
  | EvOpen (path : string) (refused : option exn)
  | EvWrite (path : string) (data : string) (refused : option exn)
  | EvClose (path : string) (refused : option exn).

Definition refusal (ev : io_event) : option exn :=
  match ev with
  | EvOpen _ r => r
  | EvWrite _ _ r => r
  | EvClose _ r => r
  end.

(** The system and the I/O library, as far as the script cannot decide
    them. *)
Record System : Type := mkSystem {
  (* the exception of a refused [open] or of a refused write of a piece *)
  sys_fault : io_op → World → option exn;
  (* the exception of a refused close of the descriptor *)
  sys_close_fault : string → World → option exn;
  (* of a refused piece [data] for [path]: how many of its first
     characters reached the file all the same *)
  sys_accepted : string → string → World → nat;
  (* of the text left unwritten by a refused piece: how many of its first
     characters the file object keeps for its next attempt *)
  sys_kept : string → nat;
  (* the buffering: of the pending text, once [f.write] has added to it,
     how many of its first characters go to the system now *)
  sys_pushes : string → nat
}.

(** The state: the world, the pending text of each open file object, and
    the operations asked of the system so far. *)
Record State : Type := mkState {
  world : World;
  buffers : gmap nat string;
  trace : list io_event
}.

Definition Io (A : Type) : Type := State → result A * State.

#[global] Instance Io_ret : MRet Io := λ A a s, (Ok a, s).

#[global] Instance Io_bind : MBind Io := λ A B k m s,
  match m s with
  | (Ok a, s') => k a s'
  | (Raise e, s') => (Raise e, s')
  end.

(** A computation that does no file I/O, run in the larger state. *)
Definition lift {A} (m : Py A) : Io A :=
  λ s, match m (world s) with
       | (r, w') => (r, mkState w' (buffers s) (trace s))
       end.

Fixpoint for_each {A} (xs : list A) (body : A → Io unit) : Io unit :=
  match xs with
  | [] => mret tt
  | x :: xs' => body x ;; for_each xs' body
  end.

(** The last exception among the answers of the system, and the result of
    a computation that catches none of them. *)
Fixpoint last_refusal (evs : list io_event) : option exn :=
  match evs with
  | [] => None
  | ev :: evs' =>
      match last_refusal evs' with
      | Some e => Some e
      | None => refusal ev
      end
  end.

Definition verdict (evs : list io_event) : result unit :=
  match last_refusal evs with
  | Some e => Raise e
  | None => Ok tt
  end.

Section System.

Variable sys : System.

(** [ev] is an operation on [path] with the answer [sys] gives to it in
    some state. *)
Definition answered (path : string) (ev : io_event) : Prop :=
  match ev with
  | EvOpen p r => p = path ∧ ∃ w, sys_fault sys (IoOpen p) w = r
  | EvWrite p data r => p = path ∧ ∃ w, sys_fault sys (IoWrite p data) w = r
  | EvClose p r => p = path ∧ ∃ w, sys_close_fault sys p w = r
  end.

(** The system is asked to write the piece [data] at the end of the file:
    all of it is written, or the write is refused after some of its first
    characters have been. *)
Definition os_write (path data : string) : Io unit :=
  λ s,
    let w := world s in
    let old := default "" (files w !! path) in
    match sys_fault sys (IoWrite path data) w with
    | None =>
        (Ok tt,
         mkState (with_files (<[path := old +:+ data]> (files w)) w)
           (buffers s) (trace s ++ [EvWrite path data None]))
    | Some e =>
        (Raise e,
         mkState
           (with_files
              (<[path := old +:+ string_take (sys_accepted sys path data w) data]>
                 (files w)) w)
           (buffers s) (trace s ++ [EvWrite path data (Some e)]))
    end.

(** [open(path, 'w')]: on success the file exists and is empty, and a new
    file object with nothing pending is open on it. *)
Definition open_w (path : string) : Io nat :=
  λ s,
    let w := world s in
    match sys_fault sys (IoOpen path) w with
    | Some e =>
        (Raise e, mkState w (buffers s) (trace s ++ [EvOpen path (Some e)]))
    | None =>
        let fd := fresh (dom (handles w) ∪ dom (buffers s)) in
        (Ok fd,
         mkState
           (mkWorld (todo_list w) (stdout w)
              (<[path := ""]> (files w)) (<[fd := path]> (handles w)))
           (<[fd := ""]> (buffers s))
           (trace s ++ [EvOpen path None]))
    end.

(** [f.write(data)]: the data joins the pending text; the library then
    hands the first characters of the pending text, as many as its
    buffering says, to the system, and keeps the rest.  When that piece is
    refused the exception is raised here, and the file object keeps some
    of what was not written. *)
Definition f_write (fd : nat) (data : string) : Io Z :=
  λ s,
    match handles (world s) !! fd, buffers s !! fd with
    | Some path, Some pending =>
        let text := pending +:+ data in
        let piece := string_take (sys_pushes sys text) text in
        if decide (piece = "") then
          (Ok (Z.of_nat (String.length data)),
           mkState (world s) (<[fd := text]> (buffers s)) (trace s))
        else
          match os_write path piece s with
          | (Ok _, s') =>
              (Ok (Z.of_nat (String.length data)),
               mkState (world s')
                 (<[fd := string_drop (sys_pushes sys text) text]> (buffers s'))
                 (trace s'))
          | (Raise e, s') =>
              let written :=
                string_take (sys_accepted sys path piece (world s)) piece in
              let unwritten := string_drop (String.length written) text in
              (Raise e,
               mkState (world s')
                 (<[fd := string_take (sys_kept sys unwritten) unwritten]>
                    (buffers s'))
                 (trace s'))
          end
    | _, _ => (Raise ValueError, s)
    end.

(** [f.close()], as [__exit__] calls it: what is pending goes to the
    system, then the descriptor is closed.  The file object is closed and
    its buffer gone whatever the system answered; a refusal is raised, the
    one of the close if both were refused. *)
Definition f_close (fd : nat) : Io unit :=
  λ s,
    match handles (world s) !! fd, buffers s !! fd with
    | Some path, Some pending =>
        match (if decide (pending = "") then (Ok tt, s)
               else os_write path pending s) with
        | (r, s1) =>
            let w1 := world s1 in
            let s2 :=
              mkState (with_handles (delete fd (handles w1)) w1)
                (delete fd (buffers s1))
                (trace s1 ++ [EvClose path (sys_close_fault sys path w1)]) in
            match sys_close_fault sys path w1 with
            | Some e => (Raise e, s2)
            | None => (r, s2)
            end
        end
    | _, _ => (Ok tt, s)
    end.

(** [with open(path, 'w') as f: body]: when [open] raises there is no file
    object; otherwise the body runs and [__exit__] closes the file object
    whatever the body did.  An exception of the close is the result of the
    statement; without one, the result is the body's. *)
Definition with_open_w {A} (path : string) (body : nat → Io A) : Io A :=
  λ s,
    match open_w path s with
    | (Raise e, s1) => (Raise e, s1)
    | (Ok f, s1) =>
        match body f s1 with
        | (r, s2) =>
            match f_close f s2 with
            | (Ok _, s3) => (r, s3)
            | (Raise e, s3) => (Raise e, s3)
            end
        end
    end.

Definition save_tasks (filename : string) : Io unit :=
  with_open_w filename (λ f,
    l ← lift get_todo_list;
    for_each l (λ task, f_write f (task +:+ NL) ;; mret tt)).

(** The module body. *)
Definition main : Io unit :=
  lift init_todo_list ;;
  lift (add_task "Buy groceries") ;;
  lift (add_task "Read a book") ;;
  lift view_tasks ;;
  save_tasks "todo.txt".

(** The state in the middle of [save_tasks path], started in [s]: the file
    object is open, [content] is in the file, [pending] in the buffer, and
    [evs] has been asked of the system. *)
Definition writing (path content pending : string) (evs : list io_event)
    (s : State) : State :=
  let fd := fresh (dom (handles (world s)) ∪ dom (buffers s)) in
  mkState
    (mkWorld (todo_list (world s)) (stdout (world s))
       (<[path := content]> (files (world s)))
       (<[fd := path]> (handles (world s))))
    (<[fd := pending]> (buffers s))
    (trace s ++ evs).

(** The state after [save_tasks path], started in [s], has closed the
    file object: [content] is in the file and [evs] has been asked. *)
Definition closed (path content : string) (evs : list io_event)
    (s : State) : State :=
  mkState (saved path content (world s)) (buffers s) (trace s ++ evs).

End System.

(** A disk with room for [capacity] characters per file, and a library
    that keeps everything pending until the close: the write that does not
    fit is refused with [ENOSPC] once the room is used up. *)
Definition full_disk (capacity : nat) : System :=
  mkSystem (disk_full_after capacity) (λ _ _, None)
    (λ path _ w, (capacity - String.length (default "" (files w !! path)))%nat)
    String.length (λ _, 0%nat).

(** The same disk under a library that keeps nothing pending. *)
Definition full_disk_unbuffered (capacity : nat) : System :=
  mkSystem (disk_full_after capacity) (λ _ _, None)
    (λ path _ w, (capacity - String.length (default "" (files w !! path)))%nat)
    String.length String.length.

(** A system that refuses nothing, under the buffering [pushes]. *)
Definition willing (pushes : string → nat) : System :=
  mkSystem no_fault (λ _ _, None) (λ _ _ _, 0%nat) String.length pushes.

End Buffered.

(** * Properties *)

(** ** Strings and lines *)

Lemma string_app_cons (x : ascii) (a b : string) :
  String x a +:+ b = String x (a +:+ b).
Proof. reflexivity. Qed.

Lemma string_app_nil_l (a : string) : "" +:+ a = a.
Proof. reflexivity. Qed.

Lemma string_app_assoc (a b c : string) : (a +:+ b) +:+ c = a +:+ (b +:+ c).
Proof.
  induction a as [|x a IH]; [done |].
  by rewrite !string_app_cons, IH.
Qed.

Lemma string_app_nil_r (a : string) : a +:+ "" = a.
Proof.
  induction a as [|x a IH]; [done |].
  by rewrite string_app_cons, IH.
Qed.

Lemma unlines_cons (s : string) (l : list string) :
  unlines (s :: l) = s +:+ NL +:+ unlines l.
Proof. reflexivity. Qed.

Lemma unlines_app (l1 l2 : list string) :
  unlines (l1 ++ l2) = unlines l1 +:+ unlines l2.
Proof.
  induction l1 as [|s l1 IH]; [done |].
  rewrite <- app_comm_cons, !unlines_cons, IH.
  by rewrite !string_app_assoc.
Qed.

Lemma unlines_snoc (l : list string) (s : string) :
  unlines (l ++ [s]) = unlines l +:+ s +:+ NL.
Proof.
  rewrite unlines_app, unlines_cons. by rewrite string_app_nil_r.
Qed.

(** ** Runs of the list functions *)

Lemma len_nonneg {A} (l : list A) : 0 ≤ len l.
Proof. unfold len. lia. Qed.

Lemma list_delitem_in_range {A} (l : list A) (i : Z) :
  0 ≤ i < len l → list_delitem l i = inr (delete (Z.to_nat i) l).
Proof.
  intros [H0 H1]. unfold list_delitem.
  destruct (Z.ltb_spec i 0) as [?|_]; [lia |].
  destruct (Z.leb_spec 0 i) as [_|?]; [| lia].
  destruct (Z.ltb_spec i (len l)) as [_|?]; [done | lia].
Qed.

Lemma remove_task_in_range (index : Z) (w : World) :
  0 ≤ index < len (todo_list w) →
  remove_task index w
  = (Ok tt, with_todo_list (delete (Z.to_nat index) (todo_list w)) w).
Proof.
  intros Hi. unfold remove_task, mbind, Py_bind, get_todo_list.
  destruct (Z.leb_spec 0 index) as [_|?]; [| lia].
  destruct (Z.ltb_spec index (len (todo_list w))) as [_|?]; [| lia].
  simpl. unfold del_todo_item. by rewrite list_delitem_in_range.
Qed.

Lemma remove_task_out_of_range (index : Z) (w : World) :
  index < 0 ∨ len (todo_list w) ≤ index →
  remove_task index w
  = (Ok tt, with_stdout (stdout w +:+ "Invalid index" +:+ NL) w).
Proof.
  intros Hi. unfold remove_task, mbind, Py_bind, get_todo_list.
  destruct (Z.leb_spec 0 index) as [?|?]; simpl; [| done].
  destruct (Z.ltb_spec index (len (todo_list w))) as [?|?]; [lia | done].
Qed.

Lemma appends_run (ds : list string) (w : World) :
  appends ds w = (Ok tt, with_todo_list (todo_list w ++ ds) w).
Proof.
  unfold appends. revert w.
  induction ds as [|d ds IH]; intros w; simpl.
  - unfold mret, Py_ret. rewrite app_nil_r. by destruct w.
  - unfold mbind, Py_bind, add_task at 1. rewrite IH.
    unfold with_todo_list; simpl. by rewrite <- app_assoc.
Qed.

(** ** [add_task] *)

(** C5: for every store and every description, the empty string included,
    [add_task] returns normally, the list is one longer, the description is
    its last element, and every element stored before is where it was.
    Nothing else of the state changes. *)
Theorem add_task_appends (description : string) (w : World) :
  ∃ w', add_task description w = (Ok tt, w') ∧
    todo_list w' = todo_list w ++ [description] ∧
    length (todo_list w') = S (length (todo_list w)) ∧
    todo_list w' !! length (todo_list w) = Some description ∧
    last (todo_list w') = Some description ∧
    (∀ j : nat, (j < length (todo_list w))%nat →
                todo_list w' !! j = todo_list w !! j) ∧
    stdout w' = stdout w ∧ files w' = files w ∧ handles w' = handles w.
Proof.
  eexists. split; [reflexivity |]. simpl.
  repeat split.
  - rewrite length_app. simpl. lia.
  - by rewrite list_lookup_middle.
  - by rewrite last_snoc.
  - intros j Hj. by rewrite lookup_app_l.
Qed.

Example add_task_empty_string :
  add_task "" (mkWorld ["a"] "" ∅ ∅) = (Ok tt, mkWorld ["a"; ""] "" ∅ ∅).
Proof. reflexivity. Qed.

(** ** [remove_task] *)

(** C1: for an index with [0 <= index < len(todo_list)], [remove_task]
    returns normally and deletes the element at that position: the list is
    one shorter, what was at a position [j > index] is at [j - 1], and what
    was before [index] has not moved.  Nothing is printed. *)
Theorem remove_task_deletes (index : Z) (w : World) :
  0 ≤ index < len (todo_list w) →
  ∃ w', remove_task index w = (Ok tt, w') ∧
    len (todo_list w') = len (todo_list w) - 1 ∧
    (∀ j : nat, index < Z.of_nat j →
                todo_list w' !! (j - 1)%nat = todo_list w !! j) ∧
    (∀ j : nat, Z.of_nat j < index →
                todo_list w' !! j = todo_list w !! j) ∧
    stdout w' = stdout w ∧ files w' = files w ∧ handles w' = handles w.
Proof.
  intros Hi. eexists. split; [by apply remove_task_in_range |]. simpl.
  repeat split.
  - unfold len in *. rewrite length_delete; [lia |].
    apply lookup_lt_is_Some. lia.
  - intros j Hj. rewrite list_lookup_delete_ge by lia.
    f_equal. lia.
  - intros j Hj. apply list_lookup_delete_lt. lia.
Qed.

Lemma remove_task_deletes_witness :
  0 ≤ 0 < len (todo_list (mkWorld ["Buy groceries"; "Read a book"] "" ∅ ∅)) ∧
  ∃ w', remove_task 0 (mkWorld ["Buy groceries"; "Read a book"] "" ∅ ∅)
        = (Ok tt, w') ∧
    len (todo_list w') = 2 - 1 ∧
    (∀ j : nat, 0 < Z.of_nat j →
                todo_list w' !! (j - 1)%nat
                = ["Buy groceries"; "Read a book"] !! j) ∧
    (∀ j : nat, Z.of_nat j < 0 →
                todo_list w' !! j = ["Buy groceries"; "Read a book"] !! j) ∧
    stdout w' = "" ∧ files w' = ∅ ∧ handles w' = ∅.
Proof.
  split; [unfold len; simpl; lia |].
  apply (remove_task_deletes 0 (mkWorld ["Buy groceries"; "Read a book"] "" ∅ ∅)).
  unfold len; simpl; lia.
Defined.

Example remove_first_then_view :
  (remove_task 0 ;; view_tasks) (mkWorld ["Buy groceries"; "Read a book"] "" ∅ ∅)
  = (Ok tt, mkWorld ["Read a book"] ("1. Read a book" +:+ NL) ∅ ∅).
Proof. reflexivity. Qed.

(** C2: for an index below 0 or at least [len(todo_list)], [remove_task]
    returns normally (no exception), leaves the list as it was and writes
    the line [Invalid index] to standard output. *)
Theorem remove_task_invalid_index (index : Z) (w : World) :
  index < 0 ∨ len (todo_list w) ≤ index →
  ∃ w', remove_task index w = (Ok tt, w') ∧
    todo_list w' = todo_list w ∧
    stdout w' = stdout w +:+ "Invalid index" +:+ NL ∧
    files w' = files w ∧ handles w' = handles w.
Proof.
  intros Hi. eexists. split; [by apply remove_task_out_of_range |].
  by simpl.
Qed.

Lemma remove_task_invalid_index_witness :
  (5 < 0 ∨ len (todo_list (mkWorld ["Buy groceries"; "Read a book"] "" ∅ ∅)) ≤ 5) ∧
  ∃ w', remove_task 5 (mkWorld ["Buy groceries"; "Read a book"] "" ∅ ∅)
        = (Ok tt, w') ∧
    todo_list w' = ["Buy groceries"; "Read a book"] ∧
    stdout w' = "" +:+ "Invalid index" +:+ NL ∧
    files w' = ∅ ∧ handles w' = ∅.
Proof.
  split; [right; unfold len; simpl; lia |].
  apply (remove_task_invalid_index 5 (mkWorld ["Buy groceries"; "Read a book"] "" ∅ ∅)).
  right; unfold len; simpl; lia.
Defined.

Example remove_task_negative_index :
  remove_task (-1) (mkWorld ["Buy groceries"; "Read a book"] "" ∅ ∅)
  = (Ok tt, mkWorld ["Buy groceries"; "Read a book"] ("Invalid index" +:+ NL) ∅ ∅).
Proof. reflexivity. Qed.

(** ** [view_tasks] *)

Lemma view_loop_run (l : list string) (n : nat) (w : World) :
  for_each (enumerate_from (Z.of_nat n) l)
    (λ '(i, task), print (str_int (i + 1) +:+ ". " +:+ task)) w
  = (Ok tt, with_stdout
              (stdout w +:+ unlines (imap (λ k, display_line (n + k)) l)) w).
Proof.
  revert n w. induction l as [|t l IH]; intros n w.
  - simpl. unfold mret, Py_ret, with_stdout.
    rewrite string_app_nil_r. by destruct w.
  - cbn [enumerate_from for_each].
    unfold mbind, Py_bind, print at 1.
    replace (Z.of_nat n + 1) with (Z.of_nat (S n)) by lia.
    cbv beta iota. rewrite IH. f_equal.
    unfold with_stdout; cbn [stdout todo_list files handles]. f_equal.
    rewrite imap_cons, unlines_cons, !string_app_assoc.
    unfold display_line at 2. rewrite Nat.add_0_r.
    replace (Z.of_nat n + 1) with (Z.of_nat (S n)) by lia.
    rewrite !string_app_assoc.
    assert (imap (λ k, display_line (S n + k)) l
            = imap ((λ k, display_line (n + k)) ∘ S) l) as ->; [| done].
    apply imap_ext. intros k x _. simpl. by rewrite Nat.add_succ_r.
Qed.

Lemma view_tasks_run (w : World) :
  view_tasks w
  = (Ok tt, with_stdout (stdout w +:+ unlines (listing (todo_list w))) w).
Proof.
  unfold view_tasks, mbind, Py_bind, get_todo_list, enumerate.
  cbv beta iota. apply (view_loop_run (todo_list w) 0 w).
Qed.

Lemma listing_lookup (l : list string) (i : nat) (d : string) :
  l !! i = Some d → listing l !! i = Some (display_line i d).
Proof. intros Hi. unfold listing. by rewrite list_lookup_imap, Hi. Qed.

(** C4: for the list built by any sequence of appends from the empty
    list, [view_tasks] returns normally and adds to standard output one
    line per task, in the order of the appends; the line of the task at
    position [i] (from 0) is the decimal of [i + 1], a dot, a space and the
    description. *)
Theorem view_tasks_lists_in_order (ds : list string) (w0 : World) :
  ∃ w w', (init_todo_list ;; appends ds) w0 = (Ok tt, w) ∧
    todo_list w = ds ∧
    view_tasks w = (Ok tt, w') ∧
    stdout w' = stdout w +:+ unlines (listing ds) ∧
    length (listing ds) = length ds ∧
    (∀ (i : nat) (d : string), ds !! i = Some d →
       listing ds !! i = Some (str_int (Z.of_nat i + 1) +:+ ". " +:+ d)).
Proof.
  eexists. eexists. split.
  { unfold mbind, Py_bind, init_todo_list. by rewrite appends_run. }
  split; [done |]. split; [apply view_tasks_run |].
  split; [done |]. split.
  - unfold listing. apply length_imap.
  - intros i d Hi. by apply listing_lookup.
Qed.

Example view_three_tasks :
  (init_todo_list ;; appends ["b"; ""; "a"] ;; view_tasks) empty_world
  = (Ok tt, mkWorld ["b"; ""; "a"]
              ("1. b" +:+ NL +:+ "2. " +:+ NL +:+ "3. a" +:+ NL) ∅ ∅).
Proof. reflexivity. Qed.

Example listing_tenth_line :
  listing (replicate 10 "x") !! 9%nat = Some "10. x".
Proof. reflexivity. Qed.

(** C8: two calls of [view_tasks] with nothing in between both return
    normally and write the same text to standard output. *)
Theorem view_tasks_twice_same_output (w : World) :
  ∃ (out : string) (w1 w2 : World),
    view_tasks w = (Ok tt, w1) ∧
    view_tasks w1 = (Ok tt, w2) ∧
    stdout w1 = stdout w +:+ out ∧
    stdout w2 = stdout w1 +:+ out.
Proof.
  exists (unlines (listing (todo_list w))).
  eexists. eexists.
  split; [apply view_tasks_run |].
  split; [apply view_tasks_run |].
  by simpl.
Qed.

(** ** [save_tasks] *)

Section SaveTasks.

Variable fault : io_op → World → option exn.

Lemma fresh_handle_closed (w : World) :
  handles w !! fresh (dom (handles w)) = None.
Proof. apply not_elem_of_dom, is_fresh. Qed.

Lemma f_close_writing (path content : string) (w : World) :
  f_close (fresh (dom (handles w))) (writing path content w)
  = saved path content w.
Proof.
  unfold f_close, writing, saved, with_handles, with_files. simpl.
  by rewrite delete_insert_id by apply fresh_handle_closed.
Qed.

Lemma open_w_ok (path : string) (w : World) :
  fault (IoOpen path) w = None →
  open_w fault path w = (Ok (fresh (dom (handles w))), writing path "" w).
Proof. intros H. unfold open_w. by rewrite H. Qed.

Lemma open_w_fail (path : string) (w : World) (e : exn) :
  fault (IoOpen path) w = Some e → open_w fault path w = (Raise e, w).
Proof. intros H. unfold open_w. by rewrite H. Qed.

Lemma f_write_ok (path content data : string) (w : World) :
  fault (IoWrite path data) (writing path content w) = None →
  f_write fault (fresh (dom (handles w))) data (writing path content w)
  = (Ok (Z.of_nat (String.length data)), writing path (content +:+ data) w).
Proof.
  intros H. unfold f_write.
  cbn [handles writing]. rewrite lookup_insert_eq.
  fold (writing path content w). rewrite H.
  unfold with_files, writing. cbn [todo_list stdout files handles].
  by rewrite lookup_insert_eq, insert_insert_eq.
Qed.

Lemma f_write_fail (path content data : string) (w : World) (e : exn) :
  fault (IoWrite path data) (writing path content w) = Some e →
  f_write fault (fresh (dom (handles w))) data (writing path content w)
  = (Raise e, writing path content w).
Proof.
  intros H. unfold f_write.
  cbn [handles writing]. rewrite lookup_insert_eq.
  fold (writing path content w). by rewrite H.
Qed.

(** The loop of [save_tasks] when no write is refused. *)
Lemma write_loop_ok (path : string) (w : World) (l : list string) :
  ∀ done : string,
  (∀ (k : nat) (t : string), l !! k = Some t →
     fault (IoWrite path (t +:+ NL))
       (writing path (done +:+ unlines (take k l)) w) = None) →
  for_each l (λ task,
      f_write fault (fresh (dom (handles w))) (task +:+ NL) ;; mret tt)
    (writing path done w)
  = (Ok tt, writing path (done +:+ unlines l) w).
Proof.
  induction l as [|t l IH]; intros done Hok.
  - simpl. unfold mret, Py_ret. by rewrite string_app_nil_r.
  - cbn [for_each]. unfold mbind at 1, Py_bind at 1.
    unfold mbind at 1, Py_bind at 1.
    rewrite f_write_ok.
    2: { specialize (Hok 0%nat t eq_refl). simpl in Hok.
         by rewrite string_app_nil_r in Hok. }
    unfold mret at 1, Py_ret at 1.
    rewrite IH.
    + by rewrite unlines_cons, !string_app_assoc.
    + intros k t' Hk. specialize (Hok (S k) t' Hk).
      rewrite firstn_cons, unlines_cons in Hok.
      by rewrite !string_app_assoc.
Qed.

Lemma save_tasks_ok (path : string) (w : World) :
  fault (IoOpen path) w = None →
  writes_succeed fault path (todo_list w) w →
  save_tasks fault path w = (Ok tt, saved path (unlines (todo_list w)) w).
Proof.
  intros Hopen Hw. unfold save_tasks, with_open_w.
  rewrite open_w_ok by done.
  unfold mbind at 1, Py_bind at 1, get_todo_list.
  change (todo_list (writing path "" w)) with (todo_list w).
  rewrite write_loop_ok by apply Hw.
  by rewrite f_close_writing.
Qed.

Lemma save_tasks_open_fail (path : string) (w : World) (e : exn) :
  fault (IoOpen path) w = Some e → save_tasks fault path w = (Raise e, w).
Proof.
  intros H. unfold save_tasks, with_open_w. by rewrite (open_w_fail _ _ e).
Qed.

(** What a write, and a write loop, leave alone, however they end. *)
Lemma f_write_frame (f : nat) (data : string) (w : World) :
  untouched_but_files w (state_after (f_write fault f data) w).
Proof.
  unfold state_after, f_write.
  destruct (handles w !! f) as [path|]; [| done].
  by destruct (fault (IoWrite path data) w).
Qed.

Lemma write_loop_frame (f : nat) (l : list string) (w : World) :
  untouched_but_files w
    (state_after
       (for_each l (λ task, f_write fault f (task +:+ NL) ;; mret tt)) w).
Proof.
  revert w. induction l as [|t l IH]; intros w; [done |].
  unfold state_after in *. cbn [for_each].
  unfold mbind at 1, Py_bind at 1.
  unfold mbind at 1, Py_bind at 1.
  pose proof (f_write_frame f (t +:+ NL) w) as Hw. unfold state_after in Hw.
  destruct (f_write fault f (t +:+ NL) w) as [[n|e] w1]; [| done].
  unfold mret at 1, Py_ret at 1.
  destruct Hw as (H1 & H2 & H3), (IH w1) as (H4 & H5 & H6).
  simpl in *. unfold untouched_but_files. by rewrite H4, H5, H6.
Qed.

Lemma save_tasks_frame (path : string) (w : World) :
  untouched_but_files w (state_after (save_tasks fault path) w).
Proof.
  unfold state_after, save_tasks, with_open_w, open_w.
  destruct (fault (IoOpen path) w) as [e|]; [done |].
  unfold mbind at 1, Py_bind at 1, get_todo_list.
  match goal with |- context [for_each ?l ?b ?w1] =>
    pose proof (write_loop_frame (fresh (dom (handles w))) l w1) as Hf;
    unfold state_after in Hf;
    destruct (for_each l b w1) as [r w2] end.
  destruct Hf as (H1 & H2 & H3). simpl in *.
  unfold untouched_but_files, f_close, with_handles. simpl.
  rewrite H1, H2, H3.
  by rewrite delete_insert_id by apply fresh_handle_closed.
Qed.

End SaveTasks.

(** ** Reading a saved file back *)

Lemma read_lines_no_newline (s : string) :
  Forall (λ line, has_newline line = false) (read_lines s).
Proof.
  induction s as [|c s IH]; simpl; [constructor |].
  destruct (decide (c = nl)) as [->|Hc]; [by constructor |].
  destruct (read_lines s) as [|line lines].
  - constructor; [| constructor]. simpl. by rewrite decide_False.
  - inversion IH; subst. constructor; [| done].
    simpl. by rewrite decide_False.
Qed.

Lemma read_lines_line (t rest : string) :
  has_newline t = false →
  read_lines (t +:+ NL +:+ rest) = t :: read_lines rest.
Proof.
  induction t as [|c t IH]; intros Ht.
  - reflexivity.
  - simpl in Ht. destruct (decide (c = nl)) as [|Hc]; [done |].
    rewrite string_app_cons. simpl.
    rewrite decide_False by done. by rewrite IH.
Qed.

Lemma read_lines_unlines (l : list string) :
  Forall (λ d, has_newline d = false) l → read_lines (unlines l) = l.
Proof.
  induction 1 as [|d l Hd _ IH]; [done |].
  by rewrite unlines_cons, read_lines_line, IH.
Qed.

Lemma read_lines_unlines_iff (l : list string) :
  read_lines (unlines l) = l ↔ Forall (λ d, has_newline d = false) l.
Proof.
  split; [| apply read_lines_unlines].
  intros H. rewrite <- H. apply read_lines_no_newline.
Qed.

(** ** [save_tasks]: what is written *)

(** C3, as the code has it: when [open] and the writes are not refused,
    [save_tasks] returns normally and the file at [path] holds, whatever
    it held before, exactly the descriptions in list order, each followed
    by one newline, and nothing else.  Reading that text back line by line
    gives the list again exactly when no description holds a newline
    character (the script escapes nothing). *)
Theorem save_tasks_file_content (fault : io_op → World → option exn)
    (path : string) (w : World) :
  fault (IoOpen path) w = None →
  writes_succeed fault path (todo_list w) w →
  ∃ w', save_tasks fault path w = (Ok tt, w') ∧
    files w' !! path = Some (unlines (todo_list w)) ∧
    (∀ other : string, other ≠ path → files w' !! other = files w !! other) ∧
    todo_list w' = todo_list w ∧
    (read_lines (unlines (todo_list w)) = todo_list w
     ↔ Forall (λ d, has_newline d = false) (todo_list w)).
Proof.
  intros Hopen Hw. eexists. split; [by apply save_tasks_ok |].
  unfold saved, with_files. simpl. split; [apply lookup_insert_eq |].
  split; [| split; [done | apply read_lines_unlines_iff]].
  intros other Hne. by rewrite lookup_insert_ne.
Qed.

Lemma save_tasks_file_content_witness :
  ∃ w', save_tasks no_fault "todo.txt"
          (mkWorld ["a"; ""; "b c"] "" {["todo.txt" := "old content"]} ∅)
        = (Ok tt, w') ∧
    files w' !! "todo.txt" = Some (unlines ["a"; ""; "b c"]) ∧
    (∀ other : string, other ≠ "todo.txt" →
       files w' !! other
       = ({["todo.txt" := "old content"]} : gmap string string) !! other) ∧
    todo_list w' = ["a"; ""; "b c"] ∧
    (read_lines (unlines ["a"; ""; "b c"]) = ["a"; ""; "b c"]
     ↔ Forall (λ d, has_newline d = false) ["a"; ""; "b c"]).
Proof.
  refine (save_tasks_file_content no_fault "todo.txt"
            (mkWorld ["a"; ""; "b c"] "" {["todo.txt" := "old content"]} ∅)
            _ _).
  - reflexivity.
  - intros k t _. reflexivity.
Defined.

Example save_replaces_old_content :
  save_tasks no_fault "todo.txt"
    (mkWorld ["a"; ""; "b c"] "" {["todo.txt" := "old content"]} ∅)
  = (Ok tt, mkWorld ["a"; ""; "b c"] ""
              {["todo.txt" := "a" +:+ NL +:+ NL +:+ "b c" +:+ NL]} ∅).
Proof. reflexivity. Qed.

(** C3, as the claim has it, fails: one task whose description holds a
    newline is saved as two lines, so reading the file back gives two
    descriptions and not the list that was saved. *)
Lemma save_tasks_roundtrip_counterexample :
  ∃ (w' : World) (content : string),
    save_tasks no_fault "todo.txt"
      (mkWorld ["a" +:+ NL +:+ "b"] "" ∅ ∅) = (Ok tt, w') ∧
    files w' !! "todo.txt" = Some content ∧
    todo_list w' = ["a" +:+ NL +:+ "b"] ∧
    read_lines content = ["a"; "b"] ∧
    read_lines content ≠ todo_list w'.
Proof.
  eexists. eexists. split; [reflexivity |].
  split; [reflexivity |]. split; [reflexivity |].
  split; [reflexivity |]. discriminate.
Qed.

(** ** The module body *)

Lemma script_prefix_run (w0 : World) :
  (init_todo_list ;; add_task "Buy groceries" ;; add_task "Read a book" ;;
   view_tasks) w0
  = (Ok tt, before_save w0).
Proof.
  unfold mbind, Py_bind, init_todo_list, add_task. cbv beta iota.
  rewrite view_tasks_run. reflexivity.
Qed.

Lemma main_run (fault : io_op → World → option exn) (w0 : World) :
  main fault w0 = save_tasks fault "todo.txt" (before_save w0).
Proof.
  unfold main, mbind, Py_bind, init_todo_list, add_task. cbv beta iota.
  rewrite view_tasks_run. reflexivity.
Qed.

(** C6: from any state at process start the module body empties the
    list, appends the two tasks and lists them, which adds the lines
    [1. Buy groceries] and [2. Read a book] to standard output; then, when
    [open] and the two writes are not refused, it returns normally and
    [todo.txt] holds exactly the two descriptions, each followed by a
    newline. *)
Theorem main_script (fault : io_op → World → option exn) (w0 : World) :
  (init_todo_list ;; add_task "Buy groceries" ;; add_task "Read a book" ;;
   view_tasks) w0
  = (Ok tt, mkWorld ["Buy groceries"; "Read a book"]
              (stdout w0 +:+ "1. Buy groceries" +:+ NL
                         +:+ "2. Read a book" +:+ NL)
              (files w0) (handles w0)) ∧
  (fault (IoOpen "todo.txt") (before_save w0) = None →
   writes_succeed fault "todo.txt" script_store (before_save w0) →
   main fault w0
   = (Ok tt, mkWorld ["Buy groceries"; "Read a book"]
               (stdout w0 +:+ "1. Buy groceries" +:+ NL
                          +:+ "2. Read a book" +:+ NL)
               (<["todo.txt" := "Buy groceries" +:+ NL
                                +:+ "Read a book" +:+ NL]> (files w0))
               (handles w0))).
Proof.
  split; [apply script_prefix_run |].
  intros Hopen Hw. rewrite main_run, save_tasks_ok by done.
  reflexivity.
Qed.

Lemma main_script_witness :
  main no_fault empty_world
  = (Ok tt, mkWorld ["Buy groceries"; "Read a book"]
              ("1. Buy groceries" +:+ NL +:+ "2. Read a book" +:+ NL)
              {["todo.txt" := "Buy groceries" +:+ NL +:+ "Read a book" +:+ NL]}
              ∅).
Proof.
  apply (proj2 (main_script no_fault empty_world)).
  - reflexivity.
  - intros k t _. reflexivity.
Defined.

(** ** The module body when [open] is refused *)

Example main_read_only :
  main read_only (mkWorld [] "" {["todo.txt" := "old content"]} ∅)
  = (Raise (OSError 13),
     mkWorld script_store script_output {["todo.txt" := "old content"]} ∅).
Proof. reflexivity. Qed.

(** ** What [view_tasks] and [save_tasks] leave alone *)

(** C9: after [view_tasks], and after [save_tasks] however it ends, the
    list is what it was before the call. *)
Theorem view_and_save_keep_the_list (fault : io_op → World → option exn)
    (path : string) (w : World) :
  todo_list (state_after view_tasks w) = todo_list w ∧
  todo_list (state_after (save_tasks fault path) w) = todo_list w.
Proof.
  split.
  - unfold state_after. by rewrite view_tasks_run.
  - apply save_tasks_frame.
Qed.

(** ** The empty list *)

(** C10: with an empty list, [view_tasks] returns normally and changes
    nothing (nothing is printed), and [save_tasks], when [open] is not
    refused, returns normally and leaves at [path] a file of length zero,
    whatever was there before. *)
Theorem empty_list_view_and_save (fault : io_op → World → option exn)
    (path : string) (w : World) :
  todo_list w = [] →
  view_tasks w = (Ok tt, w) ∧
  (fault (IoOpen path) w = None →
   ∃ w', save_tasks fault path w = (Ok tt, w') ∧
     files w' !! path = Some "" ∧
     untouched_but_files w w').
Proof.
  intros Hl. split.
  - rewrite view_tasks_run, Hl. unfold listing, with_stdout. simpl.
    rewrite string_app_nil_r. destruct w; simpl in *. by subst.
  - intros Hopen. eexists. split.
    + apply save_tasks_ok; [done |].
      rewrite Hl. intros k t Hk. by rewrite lookup_nil in Hk.
    + rewrite Hl. unfold saved, with_files. simpl.
      rewrite lookup_insert_eq. done.
Qed.

Lemma empty_list_view_and_save_witness :
  view_tasks (mkWorld [] "" {["todo.txt" := "old content"]} ∅)
  = (Ok tt, mkWorld [] "" {["todo.txt" := "old content"]} ∅) ∧
  ∃ w', save_tasks no_fault "todo.txt"
          (mkWorld [] "" {["todo.txt" := "old content"]} ∅) = (Ok tt, w') ∧
    files w' !! "todo.txt" = Some "" ∧
    untouched_but_files (mkWorld [] "" {["todo.txt" := "old content"]} ∅) w'.
Proof.
  pose proof (empty_list_view_and_save no_fault "todo.txt"
                (mkWorld [] "" {["todo.txt" := "old content"]} ∅) eq_refl)
    as [Hview Hsave].
  split; [exact Hview | exact (Hsave eq_refl)].
Defined.

Example save_empty_list :
  save_tasks no_fault "todo.txt"
    (mkWorld [] "" {["todo.txt" := "old content"]} ∅)
  = (Ok tt, mkWorld [] "" {["todo.txt" := ""]} ∅).
Proof. reflexivity. Qed.

(** * How the operations compose *)

(** ** Appending and removing *)

Lemma delete_delete_above {A} (l : list A) (i j : nat) :
  (j ≤ i)%nat → delete j (delete (S i) l) = delete i (delete j l).
Proof.
  revert i j. induction l as [|x l IH]; intros i j Hji; [done |].
  destruct j as [|j]; [done |].
  destruct i as [|i]; [lia |].
  cbn [delete list_delete]. f_equal. apply IH. lia.
Qed.

Lemma world_eta (w : World) :
  mkWorld (todo_list w) (stdout w) (files w) (handles w) = w.
Proof. by destruct w. Qed.

(** X1: a task that has just been appended sits at index [len] of the list
    before the append, and removing it there gives back the state before
    the append, with nothing printed. *)
Theorem add_then_remove_last (description : string) (w : World) :
  (add_task description ;; remove_task (len (todo_list w))) w = (Ok tt, w).
Proof.
  unfold mbind at 1, Py_bind at 1, add_task at 1.
  rewrite remove_task_in_range.
  2: { cbn [todo_list with_todo_list]. unfold len.
       rewrite length_app. simpl. lia. }
  unfold with_todo_list. cbn [todo_list stdout files handles].
  unfold len. rewrite Nat2Z.id.
  rewrite delete_middle, app_nil_r. by rewrite world_eta.
Qed.

(** X2: removing two tasks in either order.  For [j < i < len], removing
    at [i] and then at [j] is the same as removing at [j] and then at
    [i - 1]: a removal shifts the indices after it, not those before. *)
Theorem remove_two_either_order (i j : Z) (w : World) :
  0 ≤ j → j < i → i < len (todo_list w) →
  (remove_task i ;; remove_task j) w
  = (remove_task j ;; remove_task (i - 1)) w
  ∧ result_of (remove_task i ;; remove_task j) w = Ok tt
  ∧ len (todo_list (state_after (remove_task i ;; remove_task j) w))
    = len (todo_list w) - 2.
Proof.
  intros Hj Hji Hi.
  assert (length (delete (Z.to_nat i) (todo_list w))
          = (length (todo_list w) - 1)%nat) as Hli.
  { apply length_delete, lookup_lt_is_Some. unfold len in Hi. lia. }
  assert (length (delete (Z.to_nat j) (todo_list w))
          = (length (todo_list w) - 1)%nat) as Hlj.
  { apply length_delete, lookup_lt_is_Some. unfold len in Hi. lia. }
  assert ((remove_task i ;; remove_task j) w
          = (Ok tt, with_todo_list
                      (delete (Z.to_nat j) (delete (Z.to_nat i) (todo_list w)))
                      w)) as Hij.
  { unfold mbind, Py_bind.
    rewrite remove_task_in_range by lia.
    rewrite remove_task_in_range; [done |].
    cbn [todo_list with_todo_list]. unfold len in *. lia. }
  assert ((remove_task j ;; remove_task (i - 1)) w
          = (Ok tt, with_todo_list
                      (delete (Z.to_nat (i - 1))
                         (delete (Z.to_nat j) (todo_list w)))
                      w)) as Hji'.
  { unfold mbind, Py_bind.
    rewrite remove_task_in_range by lia.
    rewrite remove_task_in_range; [done |].
    cbn [todo_list with_todo_list]. unfold len in *. lia. }
  unfold result_of, state_after. rewrite Hij, Hji'.
  split; [| split; [done |]].
  - do 2 f_equal.
    replace (Z.to_nat i) with (S (Z.to_nat (i - 1))) by lia.
    apply delete_delete_above. lia.
  - cbn [snd todo_list with_todo_list]. unfold len in *.
    rewrite length_delete; [lia |].
    apply lookup_lt_is_Some. lia.
Qed.

Lemma remove_two_either_order_witness :
  (remove_task 2 ;; remove_task 0) (mkWorld ["a"; "b"; "c"; "d"] "" ∅ ∅)
  = (remove_task 0 ;; remove_task (2 - 1)) (mkWorld ["a"; "b"; "c"; "d"] "" ∅ ∅)
  ∧ result_of (remove_task 2 ;; remove_task 0)
      (mkWorld ["a"; "b"; "c"; "d"] "" ∅ ∅) = Ok tt
  ∧ len (todo_list (state_after (remove_task 2 ;; remove_task 0)
                      (mkWorld ["a"; "b"; "c"; "d"] "" ∅ ∅)))
    = len (todo_list (mkWorld ["a"; "b"; "c"; "d"] "" ∅ ∅)) - 2.
Proof.
  apply (remove_two_either_order 2 0 (mkWorld ["a"; "b"; "c"; "d"] "" ∅ ∅)).
  - lia.
  - lia.
  - unfold len; simpl; lia.
Defined.

Example remove_two_same_index_differs :
  todo_list (state_after (remove_task 2 ;; remove_task 0)
               (mkWorld ["a"; "b"; "c"; "d"] "" ∅ ∅)) = ["b"; "d"]
  ∧ todo_list (state_after (remove_task 0 ;; remove_task 2)
                 (mkWorld ["a"; "b"; "c"; "d"] "" ∅ ∅)) = ["b"; "c"].
Proof. split; reflexivity. Qed.

(** X3: [n] calls of [remove_task(0)] drop the first [n] tasks; the calls
    made once the list is empty remove nothing and each print the line
    [Invalid index].  No call raises. *)
Theorem remove_front_repeatedly (n : nat) (w : World) :
  for_each (replicate n 0) remove_task w
  = (Ok tt,
     mkWorld (drop n (todo_list w))
       (stdout w +:+ unlines (replicate (n - length (todo_list w))
                                "Invalid index"))
       (files w) (handles w)).
Proof.
  revert w. induction n as [|n IH]; intros w.
  - destruct w as [l out fs hs]. cbn [for_each replicate].
    unfold mret, Py_ret. cbn [todo_list stdout files handles].
    rewrite Nat.sub_0_l, drop_0. cbn [replicate].
    change (unlines []) with "". by rewrite string_app_nil_r.
  - cbn [replicate for_each]. unfold mbind at 1, Py_bind at 1.
    destruct (todo_list w) as [|x l] eqn:Hl.
    + rewrite remove_task_out_of_range by (rewrite Hl; unfold len; simpl; lia).
      rewrite IH. cbn [todo_list stdout files handles with_stdout].
      rewrite Hl, !drop_nil. cbn [length].
      rewrite !Nat.sub_0_r. cbn [replicate].
      by rewrite unlines_cons, !string_app_assoc.
    + rewrite remove_task_in_range by (rewrite Hl; unfold len; simpl; lia).
      rewrite IH. cbn [todo_list stdout files handles with_todo_list].
      rewrite Hl. reflexivity.
Qed.

Example remove_front_three_of_two :
  for_each (replicate 3 0) remove_task (mkWorld ["a"; "b"] "" ∅ ∅)
  = (Ok tt, mkWorld [] ("Invalid index" +:+ NL) ∅ ∅).
Proof. reflexivity. Qed.

(** ** Listing after a change *)

Lemma listing_snoc (l : list string) (d : string) :
  listing (l ++ [d]) = listing l ++ [display_line (length l) d].
Proof.
  unfold listing. rewrite imap_app. simpl.
  by rewrite Nat.add_0_r.
Qed.

(** X4: listing after an append.  [view_tasks] after [add_task] writes
    what [view_tasks] alone would have written, followed by one more line
    for the new task, numbered [len + 1]. *)
Theorem add_then_view (description : string) (w : World) :
  ∃ w', (add_task description ;; view_tasks) w = (Ok tt, w') ∧
    stdout w'
    = stdout (state_after view_tasks w)
      +:+ str_int (len (todo_list w) + 1) +:+ ". " +:+ description +:+ NL ∧
    todo_list w' = todo_list w ++ [description].
Proof.
  eexists. split.
  { unfold mbind at 1, Py_bind at 1, add_task at 1.
    apply view_tasks_run. }
  split; [| done].
  unfold state_after. rewrite view_tasks_run.
  cbn [snd stdout todo_list with_stdout with_todo_list].
  rewrite listing_snoc, unlines_snoc.
  unfold display_line, len. by rewrite !string_app_assoc.
Qed.

(** X5: listing after a removal.  For a valid index, [view_tasks] after
    [remove_task] shows one line less, numbered from 1 without a gap: a
    task before the removed one keeps its number, a task after it is shown
    with the number one below the one it had. *)
Theorem remove_then_view (index : Z) (w : World) :
  0 ≤ index < len (todo_list w) →
  ∃ (w' : World) (lines : list string),
    (remove_task index ;; view_tasks) w = (Ok tt, w') ∧
    stdout w' = stdout w +:+ unlines lines ∧
    S (length lines) = length (todo_list w) ∧
    (∀ (k : nat) (d : string), Z.of_nat k < index →
       todo_list w !! k = Some d →
       lines !! k = Some (str_int (Z.of_nat k + 1) +:+ ". " +:+ d)) ∧
    (∀ (k : nat) (d : string), index ≤ Z.of_nat k →
       todo_list w !! S k = Some d →
       lines !! k = Some (str_int (Z.of_nat k + 1) +:+ ". " +:+ d)).
Proof.
  intros Hi.
  exists (with_stdout
            (stdout w +:+ unlines (listing (delete (Z.to_nat index) (todo_list w))))
            (with_todo_list (delete (Z.to_nat index) (todo_list w)) w)).
  exists (listing (delete (Z.to_nat index) (todo_list w))).
  split.
  { unfold mbind at 1, Py_bind at 1.
    rewrite remove_task_in_range by done. apply view_tasks_run. }
  split; [done |]. split.
  { unfold listing. rewrite length_imap, length_delete.
    - unfold len in Hi. lia.
    - apply lookup_lt_is_Some. unfold len in Hi. lia. }
  split.
  - intros k d Hk Hd. apply listing_lookup.
    rewrite list_lookup_delete_lt by lia. done.
  - intros k d Hk Hd. apply listing_lookup.
    rewrite list_lookup_delete_ge by lia. done.
Qed.

Lemma remove_then_view_witness :
  ∃ (w' : World) (lines : list string),
    (remove_task 1 ;; view_tasks) (mkWorld ["a"; "b"; "c"] "" ∅ ∅)
    = (Ok tt, w') ∧
    stdout w' = "" +:+ unlines lines ∧
    S (length lines) = 3%nat ∧
    (∀ (k : nat) (d : string), Z.of_nat k < 1 →
       ["a"; "b"; "c"] !! k = Some d →
       lines !! k = Some (str_int (Z.of_nat k + 1) +:+ ". " +:+ d)) ∧
    (∀ (k : nat) (d : string), 1 ≤ Z.of_nat k →
       ["a"; "b"; "c"] !! S k = Some d →
       lines !! k = Some (str_int (Z.of_nat k + 1) +:+ ". " +:+ d)).
Proof.
  refine (remove_then_view 1 (mkWorld ["a"; "b"; "c"] "" ∅ ∅) _).
  unfold len; simpl; lia.
Defined.

Example remove_middle_then_view :
  (remove_task 1 ;; view_tasks) (mkWorld ["a"; "b"; "c"] "" ∅ ∅)
  = (Ok tt, mkWorld ["a"; "c"] ("1. a" +:+ NL +:+ "2. c" +:+ NL) ∅ ∅).
Proof. reflexivity. Qed.

(** ** [save_tasks] writing through, under any oracle *)

Section SaveOutcome.

Variable fault : io_op → World → option exn.

(** The write-through loop under any oracle: it stops after [k] whole
    tasks, at the end of the list or at the first refused write. *)
Lemma write_loop_cases (path : string) (w : World) (l : list string) :
  ∀ done : string, ∃ (k : nat) (r : result unit),
    (k ≤ length l)%nat ∧
    for_each l (λ task,
        f_write fault (fresh (dom (handles w))) (task +:+ NL) ;; mret tt)
      (writing path done w)
    = (r, writing path (done +:+ unlines (take k l)) w) ∧
    ((k = length l ∧ r = Ok tt) ∨
     (∃ (t : string) (e : exn), l !! k = Some t ∧ r = Raise e ∧
        fault (IoWrite path (t +:+ NL))
          (writing path (done +:+ unlines (take k l)) w) = Some e)).
Proof.
  induction l as [|t l IH]; intros done.
  - exists 0%nat, (Ok tt). split; [done |]. split; [| by left].
    simpl. unfold mret, Py_ret. by rewrite string_app_nil_r.
  - destruct (fault (IoWrite path (t +:+ NL)) (writing path done w))
      as [e|] eqn:Hf.
    + exists 0%nat, (Raise e). split; [simpl; lia |].
      cbn [take unlines foldr]. rewrite string_app_nil_r.
      split; [| right; by exists t, e].
      cbn [for_each]. unfold mbind at 1, Py_bind at 1.
      unfold mbind at 1, Py_bind at 1.
      by rewrite (f_write_fail _ _ _ _ _ e).
    + destruct (IH (done +:+ t +:+ NL)) as (k & r & Hk & Hrun & Hend).
      exists (S k), r. split; [simpl; lia |].
      rewrite firstn_cons, unlines_cons.
      assert (done +:+ t +:+ NL +:+ unlines (take k l)
              = (done +:+ t +:+ NL) +:+ unlines (take k l)) as Hassoc
        by by rewrite !string_app_assoc.
      rewrite Hassoc. split.
      * cbn [for_each]. unfold mbind at 1, Py_bind at 1.
        unfold mbind at 1, Py_bind at 1.
        rewrite f_write_ok by done.
        unfold mret at 1, Py_ret at 1. exact Hrun.
      * destruct Hend as [[-> ->]|(t' & e & Ht' & -> & He)]; [by left |].
        right. by exists t', e.
Qed.

Lemma save_tasks_cases (path : string) (w : World) :
  (∃ e : exn, fault (IoOpen path) w = Some e ∧
     save_tasks fault path w = (Raise e, w)) ∨
  (fault (IoOpen path) w = None ∧
   ∃ (k : nat) (r : result unit),
     (k ≤ length (todo_list w))%nat ∧
     save_tasks fault path w
     = (r, saved path (unlines (take k (todo_list w))) w) ∧
     ((k = length (todo_list w) ∧ r = Ok tt) ∨
      (∃ (t : string) (e : exn), todo_list w !! k = Some t ∧ r = Raise e ∧
         fault (IoWrite path (t +:+ NL))
           (writing path (unlines (take k (todo_list w))) w) = Some e))).
Proof.
  destruct (fault (IoOpen path) w) as [e|] eqn:Hopen.
  - left. exists e. split; [done |]. by apply save_tasks_open_fail.
  - right. split; [done |].
    destruct (write_loop_cases path w (todo_list w) "")
      as (k & r & Hk & Hrun & Hend).
    exists k, r. split; [done |]. split; [| exact Hend].
    unfold save_tasks, with_open_w. rewrite open_w_ok by done.
    unfold mbind at 1, Py_bind at 1, get_todo_list.
    change (todo_list (writing path "" w)) with (todo_list w).
    rewrite Hrun. by rewrite f_close_writing.
Qed.

Lemma save_tasks_ok_content (path : string) (w w' : World) :
  save_tasks fault path w = (Ok tt, w') →
  w' = saved path (unlines (todo_list w)) w.
Proof.
  intros Hrun.
  destruct (save_tasks_cases path w)
    as [(e & _ & He)|(_ & k & r & _ & Hk & Hend)]; [congruence |].
  rewrite Hk in Hrun.
  destruct Hend as [[-> _]|(t & e & _ & -> & _)]; [| congruence].
  rewrite firstn_all in Hrun. congruence.
Qed.

End SaveOutcome.

(** X7: [save_tasks] prints nothing and touches no file but the one at
    [path], also when it fails: standard output and every other file are
    after the call what they were before. *)
Theorem save_tasks_other_files (fault : io_op → World → option exn)
    (path : string) (w : World) :
  stdout (state_after (save_tasks fault path) w) = stdout w ∧
  (∀ other : string, other ≠ path →
     files (state_after (save_tasks fault path) w) !! other
     = files w !! other).
Proof.
  split; [apply save_tasks_frame |].
  intros other Hne. unfold state_after.
  destruct (save_tasks_cases fault path w)
    as [(e & _ & ->)|(_ & k & r & _ & -> & _)]; [done |].
  unfold saved, with_files. simpl. by rewrite lookup_insert_ne.
Qed.

(** X8: saving twice is saving once.  On a system that refuses no open of
    [path] and no write to it, two calls of [save_tasks] in a row leave
    the state one call leaves: the file is written anew, not added to. *)
Theorem save_twice (fault : io_op → World → option exn)
    (path : string) (w : World) :
  (∀ w' : World, fault (IoOpen path) w' = None) →
  (∀ (data : string) (w' : World), fault (IoWrite path data) w' = None) →
  (save_tasks fault path ;; save_tasks fault path) w = save_tasks fault path w
  ∧ save_tasks fault path w
    = (Ok tt, saved path (unlines (todo_list w)) w).
Proof.
  intros Hopen Hwrite.
  assert (∀ w0, save_tasks fault path w0
                = (Ok tt, saved path (unlines (todo_list w0)) w0)) as Hsave.
  { intros w0. apply save_tasks_ok; [done |]. intros k t _. apply Hwrite. }
  split; [| apply Hsave].
  unfold mbind, Py_bind. rewrite (Hsave w), Hsave. f_equal.
  unfold saved, with_files. cbn [todo_list stdout files handles].
  by rewrite insert_insert_eq.
Qed.

Lemma save_twice_witness :
  (save_tasks no_fault "todo.txt" ;; save_tasks no_fault "todo.txt")
    (mkWorld ["a"; "b"] "" {["todo.txt" := "old content"]} ∅)
  = save_tasks no_fault "todo.txt"
      (mkWorld ["a"; "b"] "" {["todo.txt" := "old content"]} ∅)
  ∧ save_tasks no_fault "todo.txt"
      (mkWorld ["a"; "b"] "" {["todo.txt" := "old content"]} ∅)
    = (Ok tt, saved "todo.txt" (unlines ["a"; "b"])
                (mkWorld ["a"; "b"] "" {["todo.txt" := "old content"]} ∅)).
Proof.
  refine (save_twice no_fault "todo.txt"
            (mkWorld ["a"; "b"] "" {["todo.txt" := "old content"]} ∅) _ _).
  - intros w'. reflexivity.
  - intros data w'. reflexivity.
Defined.

(** X9: the saved file tells the list when no description holds a
    newline.  If two saves return normally and leave the same file
    content, and no description of either list holds a newline character,
    then the two lists are the same. *)
Theorem saved_file_determines_list
    (fault1 fault2 : io_op → World → option exn)
    (path1 path2 : string) (w1 w2 w1' w2' : World) :
  Forall (λ d, has_newline d = false) (todo_list w1) →
  Forall (λ d, has_newline d = false) (todo_list w2) →
  save_tasks fault1 path1 w1 = (Ok tt, w1') →
  save_tasks fault2 path2 w2 = (Ok tt, w2') →
  files w1' !! path1 = files w2' !! path2 →
  todo_list w1 = todo_list w2.
Proof.
  intros Hn1 Hn2 H1 H2 Hsame.
  apply save_tasks_ok_content in H1, H2. subst w1' w2'.
  unfold saved, with_files in Hsame. simpl in Hsame.
  rewrite !lookup_insert_eq in Hsame. injection Hsame as Hsame.
  rewrite <- (read_lines_unlines (todo_list w1)) by done.
  rewrite <- (read_lines_unlines (todo_list w2)) by done.
  by rewrite Hsame.
Qed.

Lemma saved_file_determines_list_witness :
  todo_list (mkWorld ["a"; "b"] "" ∅ ∅)
  = todo_list (mkWorld ["a"; "b"] "seen" {["old.txt" := "x"]} ∅).
Proof.
  refine (saved_file_determines_list no_fault no_fault "todo.txt" "copy.txt"
            (mkWorld ["a"; "b"] "" ∅ ∅)
            (mkWorld ["a"; "b"] "seen" {["old.txt" := "x"]} ∅)
            _ _ _ _ eq_refl eq_refl _).
  - repeat constructor.
  - repeat constructor.
  - reflexivity.
Defined.

Example saved_file_same_for_two_lists :
  files (state_after (save_tasks no_fault "todo.txt")
           (mkWorld ["a" +:+ NL +:+ "b"] "" ∅ ∅))
  = files (state_after (save_tasks no_fault "todo.txt")
             (mkWorld ["a"; "b"] "" ∅ ∅)).
Proof. reflexivity. Qed.

(** * [save_tasks] with the buffer of the file object *)

(** ** Strings and traces *)

Lemma string_take_drop (n : nat) (s : string) :
  string_take n s +:+ string_drop n s = s.
Proof.
  revert s. induction n as [|n IH]; intros [|c s]; try done.
  cbn [string_take string_drop]. by rewrite string_app_cons, IH.
Qed.

Lemma string_drop_app_length (p r : string) :
  string_drop (String.length p) (p +:+ r) = r.
Proof. induction p as [|c p IH]; [done | apply IH]. Qed.

Lemma string_take_take_drop (a n : nat) (text : string) :
  string_take a (string_take n text)
  +:+ string_drop (String.length (string_take a (string_take n text))) text
  = text.
Proof.
  rewrite <- (string_take_drop n text) at 3.
  rewrite <- (string_take_drop a (string_take n text)) at 3.
  by rewrite string_app_assoc, string_drop_app_length,
    <- string_app_assoc, !string_take_drop.
Qed.

Lemma last_refusal_app (evs1 evs2 : list Buffered.io_event) :
  Buffered.last_refusal (evs1 ++ evs2)
  = match Buffered.last_refusal evs2 with
    | Some e => Some e
    | None => Buffered.last_refusal evs1
    end.
Proof.
  induction evs1 as [|ev evs1 IH]; simpl.
  - by destruct (Buffered.last_refusal evs2).
  - rewrite IH. by destruct (Buffered.last_refusal evs2).
Qed.

Lemma last_refusal_None (evs : list Buffered.io_event) :
  Buffered.last_refusal evs = None
  ↔ Forall (λ ev, Buffered.refusal ev = None) evs.
Proof.
  induction evs as [|ev evs IH]; simpl; [by split; [constructor |] |].
  destruct (Buffered.last_refusal evs) as [e|].
  - split; [done |]. intros H. inversion H; subst.
    by apply IH in H3.
  - split.
    + intros H. constructor; [done | by apply IH].
    + intros H. by inversion H.
Qed.

Lemma verdict_Ok (evs : list Buffered.io_event) :
  Buffered.verdict evs = Ok tt
  ↔ Forall (λ ev, Buffered.refusal ev = None) evs.
Proof.
  rewrite <- last_refusal_None. unfold Buffered.verdict.
  destruct (Buffered.last_refusal evs); by split.
Qed.

(** ** Runs of the buffered file object *)

Section BufferedRuns.

Variable sys : Buffered.System.
Variable path : string.
Variable s : Buffered.State.

Let fd : nat :=
  fresh (dom (handles (Buffered.world s)) ∪ dom (Buffered.buffers s)).

Lemma fresh_fd_closed :
  handles (Buffered.world s) !! fd = None ∧ Buffered.buffers s !! fd = None.
Proof.
  pose proof (is_fresh (dom (handles (Buffered.world s))
                        ∪ dom (Buffered.buffers s))) as Hfresh.
  fold fd in Hfresh. apply not_elem_of_union in Hfresh as [H1 H2].
  split; by apply not_elem_of_dom.
Qed.

Lemma os_write_writing (content pending data : string)
    (evs : list Buffered.io_event) :
  Buffered.os_write sys path data (Buffered.writing path content pending evs s)
  = match Buffered.sys_fault sys (IoWrite path data)
            (Buffered.world (Buffered.writing path content pending evs s)) with
    | None =>
        (Ok tt,
         Buffered.writing path (content +:+ data) pending
           (evs ++ [Buffered.EvWrite path data None]) s)
    | Some e =>
        (Raise e,
         Buffered.writing path
           (content +:+ string_take
              (Buffered.sys_accepted sys path data
                 (Buffered.world (Buffered.writing path content pending evs s)))
              data)
           pending (evs ++ [Buffered.EvWrite path data (Some e)]) s)
    end.
Proof.
  unfold Buffered.os_write.
  set (w := Buffered.world (Buffered.writing path content pending evs s)).
  assert (files w !! path = Some content) as Hc
    by (unfold w, Buffered.writing; simpl; apply lookup_insert_eq).
  rewrite Hc. cbn [default].
  destruct (Buffered.sys_fault sys (IoWrite path data) w) as [e|];
    unfold Buffered.writing, with_files, w; simpl;
    by rewrite insert_insert_eq, <- app_assoc.
Qed.

Lemma f_write_step (content pending data : string)
    (evs : list Buffered.io_event) :
  ∃ (content' pending' rest : string) (evs' : list Buffered.io_event)
    (r : result Z),
    Buffered.f_write sys fd data (Buffered.writing path content pending evs s)
    = (r, Buffered.writing path content' pending' (evs ++ evs') s) ∧
    content' +:+ pending' +:+ rest = content +:+ pending +:+ data ∧
    Forall (Buffered.answered sys path) evs' ∧
    ((Buffered.last_refusal evs' = None ∧ rest = "" ∧ ∃ n, r = Ok n) ∨
     (∃ e, Buffered.last_refusal evs' = Some e ∧ r = Raise e)).
Proof.
  unfold Buffered.f_write.
  assert (handles (Buffered.world (Buffered.writing path content pending evs s))
          !! fd = Some path) as ->
    by (unfold Buffered.writing; simpl; apply lookup_insert_eq).
  assert (Buffered.buffers (Buffered.writing path content pending evs s)
          !! fd = Some pending) as ->
    by (unfold Buffered.writing; simpl; apply lookup_insert_eq).
  cbv zeta.
  set (text := pending +:+ data).
  set (n := Buffered.sys_pushes sys text).
  destruct (decide (string_take n text = "")) as [Hempty|Hpiece].
  - exists content, text, "", [], (Ok (Z.of_nat (String.length data))).
    split.
    { unfold Buffered.writing. simpl.
      by rewrite insert_insert_eq, app_nil_r. }
    split; [by rewrite string_app_nil_r |].
    split; [constructor |]. left. eauto.
  - rewrite os_write_writing.
    set (w := Buffered.world (Buffered.writing path content pending evs s)).
    destruct (Buffered.sys_fault sys (IoWrite path (string_take n text)) w)
      as [e|] eqn:Hf.
    + set (a := Buffered.sys_accepted sys path (string_take n text) w).
      set (unwritten :=
             string_drop (String.length (string_take a (string_take n text)))
               text).
      set (k := Buffered.sys_kept sys unwritten).
      exists (content +:+ string_take a (string_take n text)),
        (string_take k unwritten), (string_drop k unwritten),
        [Buffered.EvWrite path (string_take n text) (Some e)], (Raise e).
      split.
      { unfold Buffered.writing. simpl. by rewrite insert_insert_eq. }
      split.
      { rewrite string_take_drop. unfold unwritten.
        by rewrite string_app_assoc, string_take_take_drop. }
      split; [| right; by exists e].
      constructor; [| constructor]. simpl. split; [done | by exists w].
    + exists (content +:+ string_take n text), (string_drop n text), "",
        [Buffered.EvWrite path (string_take n text) None],
        (Ok (Z.of_nat (String.length data))).
      split.
      { unfold Buffered.writing. simpl. by rewrite insert_insert_eq. }
      split.
      { by rewrite string_app_nil_r, string_app_assoc, string_take_drop. }
      split; [| left; eauto].
      constructor; [| constructor]. simpl. split; [done | by exists w].
Qed.

Lemma write_loop_buffered (l : list string) :
  ∀ (content pending : string) (evs : list Buffered.io_event),
  ∃ (content' pending' rest : string) (evs' : list Buffered.io_event)
    (r : result unit),
    Buffered.for_each l
      (λ task, Buffered.f_write sys fd (task +:+ NL) ;; mret tt)
      (Buffered.writing path content pending evs s)
    = (r, Buffered.writing path content' pending' (evs ++ evs') s) ∧
    content' +:+ pending' +:+ rest = content +:+ pending +:+ unlines l ∧
    Forall (Buffered.answered sys path) evs' ∧
    ((Buffered.last_refusal evs' = None ∧ rest = "" ∧ r = Ok tt) ∨
     (∃ e, Buffered.last_refusal evs' = Some e ∧ r = Raise e)).
Proof.
  induction l as [|t l IH]; intros content pending evs.
  - exists content, pending, "", [], (Ok tt).
    split; [by rewrite app_nil_r |].
    split; [done |]. split; [constructor | by left].
  - destruct (f_write_step content pending (t +:+ NL) evs)
      as (c1 & p1 & rest1 & evs1 & r1 & Hrun1 & Htext1 & Hans1 & Hend1).
    cbn [Buffered.for_each].
    unfold mbind at 1, Buffered.Io_bind at 1.
    unfold mbind at 1, Buffered.Io_bind at 1.
    rewrite Hrun1.
    destruct Hend1 as [(Hnone & -> & n & ->)|(e & Hsome & ->)].
    + unfold mret at 1, Buffered.Io_ret at 1.
      destruct (IH c1 p1 (evs ++ evs1))
        as (c2 & p2 & rest2 & evs2 & r2 & Hrun2 & Htext2 & Hans2 & Hend2).
      exists c2, p2, rest2, (evs1 ++ evs2), r2.
      split; [by rewrite Hrun2, <- app_assoc |].
      split.
      { rewrite Htext2, unlines_cons.
        rewrite string_app_nil_r in Htext1.
        by rewrite <- !string_app_assoc, Htext1, !string_app_assoc. }
      split; [by apply Forall_app |].
      rewrite last_refusal_app.
      destruct Hend2 as [(-> & -> & ->)|(e & -> & ->)]; [by left |].
      right. by exists e.
    + exists c1, p1, (rest1 +:+ unlines l), evs1, (Raise e).
      split; [done |]. split.
      { rewrite unlines_cons.
        by rewrite <- !string_app_assoc, Htext1, !string_app_assoc
          || (rewrite <- !string_app_assoc;
              rewrite <- !string_app_assoc in Htext1;
              by rewrite Htext1). }
      split; [done |]. right. by exists e.
Qed.

Lemma f_close_releases (content pending : string)
    (evs : list Buffered.io_event) (ev : Buffered.io_event) :
  Buffered.mkState
    (with_handles
       (delete fd
          (handles (Buffered.world (Buffered.writing path content pending evs s))))
       (Buffered.world (Buffered.writing path content pending evs s)))
    (delete fd (Buffered.buffers (Buffered.writing path content pending evs s)))
    (Buffered.trace (Buffered.writing path content pending evs s) ++ [ev])
  = Buffered.closed path content (evs ++ [ev]) s.
Proof.
  destruct fresh_fd_closed as [Hh Hb].
  unfold Buffered.writing, Buffered.closed, saved, with_files, with_handles.
  simpl. fold fd. by rewrite !delete_insert_id, app_assoc.
Qed.

Lemma f_close_step (content pending : string)
    (evs : list Buffered.io_event) :
  ∃ (content' rest : string) (evs' : list Buffered.io_event)
    (r : result unit),
    Buffered.f_close sys fd (Buffered.writing path content pending evs s)
    = (r, Buffered.closed path content' (evs ++ evs') s) ∧
    content' +:+ rest = content +:+ pending ∧
    Forall (Buffered.answered sys path) evs' ∧
    ((Buffered.last_refusal evs' = None ∧ rest = "" ∧ r = Ok tt) ∨
     (∃ e, Buffered.last_refusal evs' = Some e ∧ r = Raise e)).
Proof.
  unfold Buffered.f_close.
  assert (handles (Buffered.world (Buffered.writing path content pending evs s))
          !! fd = Some path) as ->
    by (unfold Buffered.writing; simpl; apply lookup_insert_eq).
  assert (Buffered.buffers (Buffered.writing path content pending evs s)
          !! fd = Some pending) as ->
    by (unfold Buffered.writing; simpl; apply lookup_insert_eq).
  destruct (decide (pending = "")) as [->|Hp].
  - set (s1 := Buffered.writing path content "" evs s).
    set (cf := Buffered.sys_close_fault sys path (Buffered.world s1)).
    exists content, "", [Buffered.EvClose path cf],
      (match cf with Some e => Raise e | None => Ok tt end).
    split.
    { cbv zeta. fold s1 cf.
      pose proof (f_close_releases content "" evs (Buffered.EvClose path cf))
        as Hrel. fold s1 in Hrel.
      rewrite Hrel. by destruct cf. }
    split; [done |]. split.
    { constructor; [| constructor]. simpl.
      split; [done | by exists (Buffered.world s1)]. }
    simpl. destruct cf as [e|]; [right; eauto | by left].
  - rewrite os_write_writing.
    set (w := Buffered.world (Buffered.writing path content pending evs s)).
    destruct (Buffered.sys_fault sys (IoWrite path pending) w) as [e1|] eqn:Hf.
    + set (a := Buffered.sys_accepted sys path pending w).
      set (s1 := Buffered.writing path (content +:+ string_take a pending)
                   pending (evs ++ [Buffered.EvWrite path pending (Some e1)]) s).
      set (cf := Buffered.sys_close_fault sys path (Buffered.world s1)).
      exists (content +:+ string_take a pending), (string_drop a pending),
        [Buffered.EvWrite path pending (Some e1); Buffered.EvClose path cf],
        (match cf with Some e => Raise e | None => Raise e1 end).
      split.
      { cbv zeta. fold cf.
        pose proof (f_close_releases (content +:+ string_take a pending)
                      pending (evs ++ [Buffered.EvWrite path pending (Some e1)])
                      (Buffered.EvClose path cf)) as Hrel.
        fold s1 in Hrel. rewrite <- app_assoc in Hrel.
        rewrite Hrel. by destruct cf. }
      split; [by rewrite string_app_assoc, string_take_drop |].
      split.
      { constructor; [| constructor; [| constructor]]; simpl.
        - split; [done | by exists w].
        - split; [done | by exists (Buffered.world s1)]. }
      right. simpl. destruct cf as [e|]; eauto.
    + set (s1 := Buffered.writing path (content +:+ pending)
                   pending (evs ++ [Buffered.EvWrite path pending None]) s).
      set (cf := Buffered.sys_close_fault sys path (Buffered.world s1)).
      exists (content +:+ pending), "",
        [Buffered.EvWrite path pending None; Buffered.EvClose path cf],
        (match cf with Some e => Raise e | None => Ok tt end).
      split.
      { cbv zeta. fold cf.
        pose proof (f_close_releases (content +:+ pending)
                      pending (evs ++ [Buffered.EvWrite path pending None])
                      (Buffered.EvClose path cf)) as Hrel.
        fold s1 in Hrel. rewrite <- app_assoc in Hrel.
        rewrite Hrel. by destruct cf. }
      split; [by rewrite string_app_nil_r |].
      split.
      { constructor; [| constructor; [| constructor]]; simpl.
        - split; [done | by exists w].
        - split; [done | by exists (Buffered.world s1)]. }
      simpl. destruct cf as [e|]; [right; eauto | by left].
Qed.

Lemma save_buffered_open_refused (e : exn) :
  Buffered.sys_fault sys (IoOpen path) (Buffered.world s) = Some e →
  Buffered.save_tasks sys path s
  = (Raise e,
     Buffered.mkState (Buffered.world s) (Buffered.buffers s)
       (Buffered.trace s ++ [Buffered.EvOpen path (Some e)])).
Proof.
  intros Ho. unfold Buffered.save_tasks, Buffered.with_open_w, Buffered.open_w.
  cbv zeta. by rewrite Ho.
Qed.

Lemma save_buffered_opened :
  Buffered.sys_fault sys (IoOpen path) (Buffered.world s) = None →
  ∃ (written rest : string) (evs : list Buffered.io_event) (r : result unit),
    Buffered.save_tasks sys path s
    = (r, Buffered.closed path written (Buffered.EvOpen path None :: evs) s) ∧
    written +:+ rest = unlines (todo_list (Buffered.world s)) ∧
    Forall (Buffered.answered sys path) evs ∧
    r = Buffered.verdict (Buffered.EvOpen path None :: evs) ∧
    (r = Ok tt → rest = "").
Proof.
  intros Ho.
  assert (Buffered.open_w sys path s
          = (Ok fd, Buffered.writing path "" ""
                      [Buffered.EvOpen path None] s)) as Hopen.
  { unfold Buffered.open_w. cbv zeta. by rewrite Ho. }
  destruct (write_loop_buffered (todo_list (Buffered.world s)) "" ""
              [Buffered.EvOpen path None])
    as (c1 & p1 & rest1 & evs1 & r1 & Hrun1 & Htext1 & Hans1 & Hend1).
  destruct (f_close_step c1 p1 ([Buffered.EvOpen path None] ++ evs1))
    as (c2 & rest2 & evs2 & r2 & Hrun2 & Htext2 & Hans2 & Hend2).
  exists c2, (rest2 +:+ rest1), (evs1 ++ evs2),
    (match r2 with Ok _ => r1 | Raise e => Raise e end).
  split.
  { unfold Buffered.save_tasks, Buffered.with_open_w. rewrite Hopen.
    unfold mbind at 1, Buffered.Io_bind at 1.
    change (Buffered.lift get_todo_list
              (Buffered.writing path "" "" [Buffered.EvOpen path None] s))
      with (Ok (todo_list (Buffered.world s)),
            Buffered.writing path "" "" [Buffered.EvOpen path None] s).
    cbv beta iota. rewrite Hrun1, Hrun2.
    rewrite <- app_assoc. by destruct r2. }
  split.
  { by rewrite <- string_app_assoc, Htext2, string_app_assoc, Htext1. }
  split; [by apply Forall_app |].
  unfold Buffered.verdict.
  change (Buffered.last_refusal (Buffered.EvOpen path None :: evs1 ++ evs2))
    with (match Buffered.last_refusal (evs1 ++ evs2) with
          | Some e => Some e
          | None => None
          end).
  rewrite last_refusal_app.
  destruct Hend2 as [(-> & -> & ->)|(e2 & -> & ->)].
  - destruct Hend1 as [(-> & -> & ->)|(e1 & -> & ->)]; [done |].
    split; [done | discriminate].
  - split; [done | discriminate].
Qed.

Lemma main_buffered_run (s0 : Buffered.State) :
  Buffered.main sys s0
  = Buffered.save_tasks sys "todo.txt"
      (Buffered.mkState (before_save (Buffered.world s0))
         (Buffered.buffers s0) (Buffered.trace s0)).
Proof.
  unfold Buffered.main, mbind, Buffered.Io_bind, Buffered.lift,
    init_todo_list, add_task.
  cbn [Buffered.world Buffered.buffers Buffered.trace].
  rewrite view_tasks_run. reflexivity.
Qed.

End BufferedRuns.

Lemma answered_willing (sys : Buffered.System) (path : string)
    (evs : list Buffered.io_event) :
  (∀ w, Buffered.sys_fault sys (IoOpen path) w = None) →
  (∀ data w, Buffered.sys_fault sys (IoWrite path data) w = None) →
  (∀ w, Buffered.sys_close_fault sys path w = None) →
  Forall (Buffered.answered sys path) evs →
  Forall (λ ev, Buffered.refusal ev = None) evs.
Proof.
  intros Hopen Hwrite Hclose Hans.
  eapply Forall_impl; [exact Hans |].
  intros [p r|p data r|p r]; simpl; intros [-> [w <-]]; auto.
Qed.

(** ** [save_tasks]: failures *)

(** C7: [save_tasks] catches nothing, and closes what it opened.  Under
    any system and any buffering, the operations a call asks of the system
    begin with the [open]; the call returns normally exactly when none of
    them was refused, and otherwise raises an exception the system gave,
    the last one: a refused [open], a refused write of pending text during
    the loop, or a refusal met while [__exit__] closes the file object.
    When [open] is refused nothing has changed.  On every path the open
    file objects and their buffers are at the end what they were at the
    start.  The module body catches nothing either: its result is the one
    of its [save_tasks] call. *)
Theorem save_tasks_errors_propagate (sys : Buffered.System)
    (path : string) (s : Buffered.State) :
  ∃ (evs : list Buffered.io_event) (r : result unit) (s' : Buffered.State),
    Buffered.save_tasks sys path s = (r, s') ∧
    Buffered.trace s'
    = Buffered.trace s
      ++ Buffered.EvOpen path
           (Buffered.sys_fault sys (IoOpen path) (Buffered.world s)) :: evs ∧
    Forall (Buffered.answered sys path) evs ∧
    r = Buffered.verdict
          (Buffered.EvOpen path
             (Buffered.sys_fault sys (IoOpen path) (Buffered.world s)) :: evs) ∧
    (r = Ok tt
     ↔ Buffered.sys_fault sys (IoOpen path) (Buffered.world s) = None
       ∧ Forall (λ ev, Buffered.refusal ev = None) evs) ∧
    (∀ e : exn,
       Buffered.sys_fault sys (IoOpen path) (Buffered.world s) = Some e →
       r = Raise e ∧ Buffered.world s' = Buffered.world s) ∧
    handles (Buffered.world s') = handles (Buffered.world s) ∧
    Buffered.buffers s' = Buffered.buffers s ∧
    (∀ s0 : Buffered.State,
       Buffered.main sys s0
       = Buffered.save_tasks sys "todo.txt"
           (Buffered.mkState (before_save (Buffered.world s0))
              (Buffered.buffers s0) (Buffered.trace s0))).
Proof.
  destruct (Buffered.sys_fault sys (IoOpen path) (Buffered.world s))
    as [e|] eqn:Ho.
  - exists [], (Raise e). eexists.
    split; [by apply save_buffered_open_refused |].
    split; [done |]. split; [constructor |]. split; [done |].
    split; [split; [done | by intros [? _]] |].
    split; [by intros e' [= <-] |].
    split; [done |]. split; [done |]. apply main_buffered_run.
  - destruct (save_buffered_opened sys path s Ho)
      as (written & rest & evs & r & Hrun & _ & Hans & Hr & _).
    exists evs, r. eexists. split; [exact Hrun |].
    split; [done |]. split; [done |]. split; [done |].
    split.
    { rewrite Hr, verdict_Ok. split.
      - intros H. split; [done |]. by inversion H.
      - intros [_ H]. by constructor. }
    split; [done |]. split; [done |]. split; [done |].
    apply main_buffered_run.
Qed.

Example main_full_disk :
  Buffered.main (Buffered.full_disk 20) (Buffered.mkState empty_world ∅ [])
  = (Raise (OSError 28),
     Buffered.mkState
       (mkWorld script_store script_output
          {["todo.txt" := "Buy groceries" +:+ NL +:+ "Read a"]} ∅)
       ∅
       [Buffered.EvOpen "todo.txt" None;
        Buffered.EvWrite "todo.txt" script_file (Some (OSError 28));
        Buffered.EvClose "todo.txt" None]).
Proof. reflexivity. Qed.

Example main_full_disk_unbuffered :
  Buffered.main (Buffered.full_disk_unbuffered 20)
    (Buffered.mkState empty_world ∅ [])
  = (Raise (OSError 28),
     Buffered.mkState
       (mkWorld script_store script_output
          {["todo.txt" := "Buy groceries" +:+ NL +:+ "Read a"]} ∅)
       ∅
       [Buffered.EvOpen "todo.txt" None;
        Buffered.EvWrite "todo.txt" ("Buy groceries" +:+ NL) None;
        Buffered.EvWrite "todo.txt" ("Read a book" +:+ NL) (Some (OSError 28));
        Buffered.EvWrite "todo.txt" (" book" +:+ NL) (Some (OSError 28));
        Buffered.EvClose "todo.txt" None]).
Proof. reflexivity. Qed.

(** X6: what a call of [save_tasks] leaves in the file, under any system
    and any buffering.  When [open] is refused the call raises and nothing
    has changed.  Otherwise the file at [path] holds a leading part of the
    text of the whole list (each description followed by a newline) and
    nothing of its old content; it holds the whole text whenever the call
    returns normally.  After a failure the leading part may end in the
    middle of a task. *)
Theorem save_tasks_outcome (sys : Buffered.System)
    (path : string) (s : Buffered.State) :
  ∃ (r : result unit) (s' : Buffered.State),
    Buffered.save_tasks sys path s = (r, s') ∧
    ((∃ e : exn,
        Buffered.sys_fault sys (IoOpen path) (Buffered.world s) = Some e ∧
        r = Raise e ∧ Buffered.world s' = Buffered.world s) ∨
     (Buffered.sys_fault sys (IoOpen path) (Buffered.world s) = None ∧
      ∃ written rest : string,
        Buffered.world s' = saved path written (Buffered.world s) ∧
        written +:+ rest = unlines (todo_list (Buffered.world s)) ∧
        (r = Ok tt → rest = ""))).
Proof.
  destruct (Buffered.sys_fault sys (IoOpen path) (Buffered.world s))
    as [e|] eqn:Ho.
  - exists (Raise e). eexists.
    split; [by apply save_buffered_open_refused |]. left. by exists e.
  - destruct (save_buffered_opened sys path s Ho)
      as (written & rest & evs & r & Hrun & Htext & _ & _ & Hrest).
    exists r. eexists. split; [exact Hrun |]. right.
    split; [done |]. by exists written, rest.
Qed.

(** X10: when nothing is refused the buffer does not show.  On a system
    that refuses no open of [path], no write to it and no close of it,
    [save_tasks] with the buffered file object returns normally, whatever
    the buffering, and leaves the world that [save_tasks] writing through
    leaves: the file holds the text of the whole list. *)
Theorem buffered_save_agrees (sys : Buffered.System)
    (path : string) (s : Buffered.State) :
  (∀ w, Buffered.sys_fault sys (IoOpen path) w = None) →
  (∀ data w, Buffered.sys_fault sys (IoWrite path data) w = None) →
  (∀ w, Buffered.sys_close_fault sys path w = None) →
  ∃ s' : Buffered.State,
    Buffered.save_tasks sys path s = (Ok tt, s') ∧
    save_tasks (Buffered.sys_fault sys) path (Buffered.world s)
    = (Ok tt, Buffered.world s') ∧
    Buffered.world s'
    = saved path (unlines (todo_list (Buffered.world s))) (Buffered.world s) ∧
    Buffered.buffers s' = Buffered.buffers s.
Proof.
  intros Hopen Hwrite Hclose.
  destruct (save_buffered_opened sys path s (Hopen _))
    as (written & rest & evs & r & Hrun & Htext & Hans & Hr & Hrest).
  assert (r = Ok tt) as ->.
  { rewrite Hr. apply verdict_Ok. constructor; [done |].
    by apply (answered_willing sys path). }
  rewrite (Hrest eq_refl), string_app_nil_r in Htext. subst written.
  eexists. split; [exact Hrun |]. split; [| done].
  apply save_tasks_ok; [apply Hopen |]. intros k t _. apply Hwrite.
Qed.

Lemma buffered_save_agrees_witness :
  ∃ s' : Buffered.State,
    Buffered.save_tasks (Buffered.willing (λ _, 3%nat)) "todo.txt"
      (Buffered.mkState
         (mkWorld ["a"; "b c"] "" {["todo.txt" := "old content"]} ∅) ∅ [])
    = (Ok tt, s') ∧
    save_tasks no_fault "todo.txt"
      (mkWorld ["a"; "b c"] "" {["todo.txt" := "old content"]} ∅)
    = (Ok tt, Buffered.world s') ∧
    Buffered.world s'
    = saved "todo.txt" (unlines ["a"; "b c"])
        (mkWorld ["a"; "b c"] "" {["todo.txt" := "old content"]} ∅) ∧
    Buffered.buffers s' = ∅.
Proof.
  refine (buffered_save_agrees (Buffered.willing (λ _, 3%nat)) "todo.txt"
            (Buffered.mkState
               (mkWorld ["a"; "b c"] "" {["todo.txt" := "old content"]} ∅)
               ∅ []) _ _ _).
  - intros w. reflexivity.
  - intros data w. reflexivity.
  - intros w. reflexivity.
Defined.

Example save_buffered_in_pieces :
  Buffered.save_tasks (Buffered.willing (λ _, 3%nat)) "todo.txt"
    (Buffered.mkState
       (mkWorld ["a"; "b c"] "" {["todo.txt" := "old content"]} ∅) ∅ [])
  = (Ok tt,
     Buffered.mkState
       (mkWorld ["a"; "b c"] ""
          {["todo.txt" := "a" +:+ NL +:+ "b c" +:+ NL]} ∅)
       ∅
       [Buffered.EvOpen "todo.txt" None;
        Buffered.EvWrite "todo.txt" ("a" +:+ NL) None;
        Buffered.EvWrite "todo.txt" "b c" None;
        Buffered.EvWrite "todo.txt" NL None;
        Buffered.EvClose "todo.txt" None]).
Proof. reflexivity. Qed.
